(** * Verification of the pomodoro timer (session timer and controller)

    Shallow embedding of [src/session_timer.rs], [src/types.rs] and the
    flag-based [run_timer] / [main] loop of [src/main.rs]. *)

From Stdlib Require Import PeanoNat NArith List Ascii String Bool Lia.
Import ListNotations.
Open Scope N_scope.

(** ** Data model ([src/types.rs]) *)

Inductive Command : Type :=
| Pause
| PauseResume
| Reset
| Resume
| Skip.

Inductive SessionType : Type :=
| Work (label : string)
| ShortBreak (label : string)
| LongBreak (label : string).

(** [impl fmt::Display for SessionType]: each variant prints its label. *)
Definition session_display (s : SessionType) : string :=
  match s with
  | Work msg => msg
  | ShortBreak msg => msg
  | LongBreak msg => msg
  end.

(** The payloads of [mpsc::RecvError] and [mpsc::RecvTimeoutError]. *)
Inductive RecvError : Type := RecvErr.

Inductive RecvTimeoutError : Type :=
| Timeout
| Disconnected.

Inductive AppError : Type :=
| ChannelSend (c : Command)
| ChannelRecv (e : RecvError)
| ChannelRecvTimeout (e : RecvTimeoutError).

(** ** The command channel

    The receiving side of [mpsc::channel::<Command>] as seen by one timer is
    a timeline of events: a command that arrives, a full second in which
    nothing arrives, or the hang-up of the sending side (after which every
    receive fails).  The receiver is shared ([Arc<Mutex<Receiver>>]) between
    successive timers, so whatever one timer leaves unread is seen by the
    next one. *)
Inductive Event : Type :=
| EvCmd (c : Command)
| EvTick
| EvHangup.

(** [rx.recv()]: blocks through silent seconds until a command or the
    hang-up. [None] means the call is still blocked when the timeline ends. *)
Fixpoint recv (evs : list Event) : option (Command + RecvError) * list Event :=
  match evs with
  | [] => (None, [])
  | EvTick :: evs' => recv evs'
  | EvCmd c :: evs' => (Some (inl c), evs')
  | EvHangup :: _ => (Some (inr RecvErr), evs)
  end.

(** [rx.recv_timeout(Duration::from_secs(1))]. *)
Definition recv_timeout (evs : list Event)
  : option (Command + RecvTimeoutError) * list Event :=
  match evs with
  | [] => (None, [])
  | EvTick :: evs' => (Some (inr Timeout), evs')
  | EvCmd c :: evs' => (Some (inl c), evs')
  | EvHangup :: _ => (Some (inr Disconnected), evs)
  end.

(** ** The session timer ([src/session_timer.rs]) *)

Definition u64_modulus : N := 2 ^ 64.

(** [remaining_secs -= 1] on a [u64], wrap-around written out. *)
Definition u64_sub1 (x : N) : N :=
  if x =? 0 then u64_modulus - 1 else x - 1.

Record SessionTimer : Type := mkTimer {
  duration : N;            (** [self.duration.as_secs()] *)
  session : SessionType;
  current_cycle : N;
  total_cycles : N;
  sound : bool             (** [!no_sound] *)
}.

(** The mutable part of one [run]: the local [remaining_secs], the field
    [self.is_paused] and the position of the progress bar. *)
Record LoopState : Type := mkState {
  remaining_secs : N;
  is_paused : bool;
  pos : N
}.

(** Observable side effects of [run]. *)
Inductive Effect : Type :=
| Notify (msg : string)    (** [send_notification] *)
| ResetEta                 (** [progress_bar.reset_eta()] *)
| PlaySound.               (** [play_sound(&self.sink)] *)

Definition ten_secs_msg (t : SessionTimer) : string :=
  (session_display (session t) ++ ": 00:10s left")%string.

(** [matches!(self.session, SessionType::Work(_))] *)
Definition is_work (s : SessionType) : bool :=
  match s with Work _ => true | _ => false end.

(** Initial state: [SessionTimer::new] sets [is_paused: false]; the bar
    starts at position 0; [remaining_secs = self.duration.as_secs()]. *)
Definition init_state (t : SessionTimer) : LoopState :=
  mkState (duration t) false 0.

(** Result of one pass through the body of [while remaining_secs > 0]. *)
Inductive Iter : Type :=
| Continue (s : LoopState) (evs : list Event)
| Break (s : LoopState) (evs : list Event)
| Fail (e : AppError)
| Blocked.

(** The notification at the top of the loop body. *)
Definition head_effects (t : SessionTimer) (s : LoopState) : list Effect :=
  if remaining_secs s =? 10 then [Notify (ten_secs_msg t)] else [].

(** The loop body, lines 71-110 of [session_timer.rs]. *)
Definition body (t : SessionTimer) (s : LoopState) (evs : list Event)
  : Iter * list Effect :=
  let ne := head_effects t s in
  if is_paused s then
    match recv evs with
    | (Some (inl cmd), evs') =>
        match cmd with
        | Resume | PauseResume =>
            (Continue (mkState (remaining_secs s) false (pos s)) evs',
             ne ++ [ResetEta])
        | _ => (Continue s evs', ne)
        end
    | (Some (inr e), _) => (Fail (ChannelRecv e), ne)
    | (None, _) => (Blocked, ne)
    end
  else
    match recv_timeout evs with
    | (Some (inl cmd), evs') =>
        match cmd with
        | Skip =>
            if negb (is_work (session t)) then (Break s evs', ne)
            else (Continue s evs', ne)
        | Pause | PauseResume =>
            (Continue (mkState (remaining_secs s) true (pos s)) evs', ne)
        | Reset =>
            (Continue (mkState (duration t) (is_paused s) 0) evs',
             ne ++ [ResetEta])
        | Resume => (Continue s evs', ne)
        end
    | (Some (inr Timeout), evs') =>
        (Continue (mkState (u64_sub1 (remaining_secs s)) (is_paused s)
                           (pos s + 1)) evs', ne)
    | (Some (inr e), _) => (Fail (ChannelRecvTimeout e), ne)
    | (None, _) => (Blocked, ne)
    end.

(** Outcome of [run]: [Ok(())] with the final loop state and the unread
    events, [Err(e)], or still running when the timeline ends / the fuel
    is exhausted. *)
Inductive Outcome : Type :=
| Done (s : LoopState) (rest : list Event)
| Failed (e : AppError)
| Pending.

(** Code after the loop: [if remaining_secs == 0 && self.sound]. *)
Definition finish (t : SessionTimer) (s : LoopState) : list Effect :=
  if (remaining_secs s =? 0) && sound t then [PlaySound] else [].

Fixpoint run_loop (fuel : nat) (t : SessionTimer) (s : LoopState)
    (evs : list Event) : Outcome * list Effect :=
  match fuel with
  | O => (Pending, [])
  | S fuel' =>
      if 0 <? remaining_secs s then
        match body t s evs with
        | (Continue s' evs', eff) =>
            let (o, eff') := run_loop fuel' t s' evs' in (o, eff ++ eff')
        | (Break s' evs', eff) => (Done s' evs', eff ++ finish t s')
        | (Fail e, eff) => (Failed e, eff)
        | (Blocked, eff) => (Pending, eff)
        end
      else (Done s evs, finish t s)
  end.

(** [SessionTimer::run]: every pass that continues consumes at least one
    event, so [S (length evs)] passes are enough. *)
Definition run (t : SessionTimer) (evs : list Event) : Outcome * list Effect :=
  run_loop (S (List.length evs)) t (init_state t) evs.

(** Passes of the loop as a step relation: [steps t s evs ss s' evs'] says
    that from [s] with pending events [evs] the loop performs one body pass
    per state of [ss] (each taken under the guard [remaining_secs > 0] and
    each continuing the loop), ending in [s'] with [evs'] unread. *)
Inductive steps (t : SessionTimer)
  : LoopState -> list Event -> list LoopState -> LoopState -> list Event -> Prop :=
| steps_nil s evs : steps t s evs [] s evs
| steps_cons s evs s' evs' eff ss s'' evs'' :
    0 < remaining_secs s ->
    body t s evs = (Continue s' evs', eff) ->
    steps t s' evs' ss s'' evs'' ->
    steps t s evs (s' :: ss) s'' evs''.

(** ** The controller driving [SessionTimer::run] *)

(** Modelled from the spec: the controller of the channel-based design
    (the crate root that creates the channel, spawns the
    [CommandDispatcher] and builds the [SessionTimer]s is not part of the
    sources).  Section 4.3 of the spec: the sessions of the plan run one
    after the other on the one shared receiver; a [Failed] outcome stops
    the sequencing at once and is surfaced. *)
Inductive CtrlOutcome : Type :=
| CtrlOk (rest : list Event)
| CtrlFailed (e : AppError)
| CtrlPending.

Fixpoint run_sessions (plan : list SessionTimer) (evs : list Event)
  : list SessionTimer * CtrlOutcome :=
  match plan with
  | [] => ([], CtrlOk evs)
  | t :: plan' =>
      match fst (run t evs) with
      | Done _ rest =>
          let (started, o) := run_sessions plan' rest in (t :: started, o)
      | Failed e => ([t], CtrlFailed e)
      | Pending => ([t], CtrlPending)
      end
  end.

(** ** The flag-based timer and controller of [src/main.rs] *)

Module FlagMain.

(** The key-reading thread sets the [skip] flag; [run_timer] reads it at
    the top of every iteration.  The value seen at each iteration is an
    input of the model; once the list is used up the flag reads [false]. *)
Definition take_skip (skips : list bool) : bool * list bool :=
  match skips with
  | [] => (false, [])
  | b :: r => (b, r)
  end.

(** [for remaining_seconds in (1..=total_seconds).rev()]: returns
    [was_skipped] and the notifications sent. *)
Fixpoint countdown (work_type : SessionType) (remaining_seconds : nat)
    (skips : list bool) : bool * list Effect :=
  match remaining_seconds with
  | O => (false, [])
  | S r =>
      let (sk, skips') := take_skip skips in
      if sk then (true, [])
      else
        let ne :=
          if N.of_nat remaining_seconds =? 10
          then [Notify (session_display work_type ++ ": 00:10s left")%string]
          else [] in
        let (w, e) := countdown work_type r skips' in (w, ne ++ e)
  end.

(** The messages of [run_timer], without their trailing emoji. *)
Definition completion_message (work_type : SessionType) : string :=
  match work_type with
  | Work _ => "Work session is over. Time for a break!"
  | ShortBreak _ => "Break is over. Time to focus!"
  | LongBreak _ => "Long break is over. Time to get back to work!"
  end.

(** [run_timer]; the process-wide [POMODORO_COUNTER] is threaded through
    as [counter] ([fetch_add] on an [AtomicU64] wraps). *)
Definition run_timer (duration_mins : N) (work_type : SessionType)
    (skips : list bool) (no_sound : bool) (counter : N)
  : bool * list Effect * N :=
  let total_seconds := (duration_mins * 60) mod u64_modulus in
  let (was_skipped, eff) := countdown work_type (N.to_nat total_seconds) skips in
  if negb was_skipped then
    let counter' :=
      if is_work work_type then (counter + 1) mod u64_modulus else counter in
    (was_skipped,
     eff ++ [Notify (completion_message work_type)]
         ++ (if negb no_sound then [PlaySound] else []),
     counter')
  else (was_skipped, eff, counter).

Record Config : Type := mkConfig {
  work_duration : N;
  short_break : N;
  long_break : N;
  cycles : N;
  no_sound : bool
}.

(** [run_break_timer]: the kind and length of the break of [cycle]. *)
Definition break_of (cfg : Config) (cycle : N) : SessionType * N :=
  if cycle <? cycles cfg then (ShortBreak "Break time", short_break cfg)
  else (LongBreak "Long break time", long_break cfg).

Definition work_session : SessionType := Work "Work session".

(** What the environment does during one session: the skip flag as read at
    each iteration, and whether the reset flag is set when [check_reset]
    runs after the session. *)
Record SessionEnv : Type := mkEnv {
  skips : list bool;
  reset_after : bool
}.

Record SessionRun : Type := mkRun {
  run_type : SessionType;
  run_mins : N;
  run_cycle : N;
  run_skipped : bool
}.

(** [while current_cycle <= config.cycles] inside [loop]: the cycle the
    next work session runs in; when the inner loop is left, the outer loop
    starts again at 1; with [cycles = 0] it spins for ever ([None]). *)
Definition cycle_head (cfg : Config) (c : N) : option N :=
  if c <=? cycles cfg then Some c
  else if 1 <=? cycles cfg then Some 1 else None.

(** The body of [main] after the key thread is spawned: one [SessionEnv]
    is consumed per session run; the result lists the sessions run and the
    final counter.  [continue] keeps [current_cycle];
    [current_cycle += 1] is on a [u64]. *)
Fixpoint main_from (cfg : Config) (c : N) (envs : list SessionEnv)
    (counter : N) {struct envs} : list SessionRun * N :=
  match cycle_head cfg c with
  | None => ([], counter)
  | Some cur =>
      match envs with
      | [] => ([], counter)
      | ew :: envs1 =>
          let '(w_sk, _, counter1) :=
            run_timer (work_duration cfg) work_session (skips ew)
                      (no_sound cfg) counter in
          let rw := mkRun work_session (work_duration cfg) cur w_sk in
          if reset_after ew then
            let (rs, k) := main_from cfg cur envs1 counter1 in (rw :: rs, k)
          else
            match envs1 with
            | [] => ([rw], counter1)
            | eb :: envs2 =>
                let (bty, bmins) := break_of cfg cur in
                let '(b_sk, _, counter2) :=
                  run_timer bmins bty (skips eb) (no_sound cfg) counter1 in
                let rb := mkRun bty bmins cur b_sk in
                let next := if reset_after eb then cur
                            else (cur + 1) mod u64_modulus in
                let (rs, k) := main_from cfg next envs2 counter2 in
                (rw :: rb :: rs, k)
            end
      end
  end.

Definition main_run (cfg : Config) (envs : list SessionEnv)
  : list SessionRun * N :=
  main_from cfg 1 envs 0.

(** The cycle of the next work session when the loop is entered with
    [current_cycle = c] (the [Some] case of [cycle_head]). *)
Definition first_cycle (cfg : Config) (c : N) : N :=
  if c <=? cycles cfg then c else 1.

(** Number of work sessions of [runs] that ran to completion. *)
Definition completed_work (runs : list SessionRun) : nat :=
  List.length (filter (fun r => is_work (run_type r) && negb (run_skipped r)) runs).

(** The break of cycle [c] as the spec describes it: [long_break] when
    [c == total_cycles], [short_break] otherwise. *)
Definition spec_break (cfg : Config) (c : N) : SessionType * N :=
  if c =? cycles cfg then (LongBreak "Long break time", long_break cfg)
  else (ShortBreak "Break time", short_break cfg).

(** The session that follows [r] in the order the spec describes (a work
    session is followed by the break of its cycle, a break by the work
    session of the next cycle, or of cycle 1 after the last one), amended
    with the reset request observed by [check_reset] after [r]: the current
    cycle starts again with its work session. *)
Definition next_session (cfg : Config) (r : SessionRun) (reset : bool)
  : SessionType * N * N :=
  if reset then (work_session, work_duration cfg, run_cycle r)
  else
    match run_type r with
    | Work _ =>
        let (bty, bmins) := spec_break cfg (run_cycle r) in
        (bty, bmins, run_cycle r)
    | _ =>
        (work_session, work_duration cfg,
         if run_cycle r <? cycles cfg then run_cycle r + 1 else 1)
    end.

Definition session_key (r : SessionRun) : SessionType * N * N :=
  (run_type r, run_mins r, run_cycle r).

(** [follows cfg runs envs]: each session of [runs] is the one
    [next_session] prescribes after its predecessor. *)
Fixpoint follows (cfg : Config) (runs : list SessionRun)
    (envs : list SessionEnv) : Prop :=
  match runs, envs with
  | r :: ((r' :: _) as rs), e :: es =>
      next_session cfg r (reset_after e) = session_key r' /\
      follows cfg rs es
  | _, _ => True
  end.

End FlagMain.

(** ** The command dispatcher ([src/command_dispatcher.rs]) *)

(** [crossterm::event::KeyCode]: character keys, [Esc], and the other
    variants of the enum, which this code only ever compares or prints. *)
Inductive KeyCode : Type :=
| Char (c : ascii)
| Esc
| OtherKey (n : nat).

Definition keycode_eqb (a b : KeyCode) : bool :=
  match a, b with
  | Char x, Char y => Ascii.eqb x y
  | Esc, Esc => true
  | OtherKey x, OtherKey y => Nat.eqb x y
  | _, _ => false
  end.

(** [KeyModifiers] is a bit set; [KeyModifiers::CONTROL] is bit 1. *)
Definition key_modifiers_control : N := 2.

Record KeyEvent : Type := mkKeyEvent {
  key_code : KeyCode;
  key_modifiers : N
}.

(** What one pass of the dispatcher loop sees: [event::poll] timing out,
    an event that is not a key press, or a key press. *)
Inductive TermEvent : Type :=
| PollTimeout
| OtherEvent
| KeyPress (k : KeyEvent).

Section CommandParser.

(** [KeyCode::to_string()], provided by crossterm. *)
Variable key_display : KeyCode -> string.

(** A [HashMap<String, Command>] as an association list: [insert] puts
    the new binding in front, where it shadows any older one. *)
Definition hm_insert (k : string) (v : Command) (m : list (string * Command))
  : list (string * Command) :=
  (k, v) :: m.

Definition hm_get (k : string) (m : list (string * Command)) : option Command :=
  option_map snd (find (fun p => String.eqb (fst p) k) m).

(** [CommandParser::new]. *)
Definition command_parser_new : list (string * Command) :=
  hm_insert (key_display (Char "s")) Skip
    (hm_insert (key_display (Char "r")) Resume
      (hm_insert (key_display (Char "x")) Reset
        (hm_insert (key_display (Char " ")) PauseResume
          (hm_insert (key_display (Char "p")) Pause [])))).

(** [CommandParser::get]: looks up [input.code.to_string()]. *)
Definition command_parser_get (commands : list (string * Command))
    (input : KeyEvent) : option Command :=
  hm_get (key_display (key_code input)) commands.

(** The quit test of [CommandDispatcher::run]. *)
Definition is_quit (k : KeyEvent) : bool :=
  ((key_modifiers k =? key_modifiers_control)
     && keycode_eqb (key_code k) (Char "c"))
  || keycode_eqb (key_code k) (Char "q")
  || keycode_eqb (key_code k) Esc.

(** How the body of [loop] in [CommandDispatcher::run] ends. *)
Inductive LoopExit : Type :=
| LoopBreak
| LoopErr (e : AppError)
| LoopRunning.

(** The [loop] of [CommandDispatcher::run].  [rx_gone_after] is the
    number of commands the receiver takes before it is dropped ([None]:
    it never is); a [send] on a dropped receiver fails.  Returns the
    commands sent, in order. *)
Fixpoint dispatch_loop (commands : list (string * Command))
    (rx_gone_after : option nat) (sent : nat) (evs : list TermEvent)
  : list Command * LoopExit :=
  match evs with
  | [] => ([], LoopRunning)
  | PollTimeout :: evs' | OtherEvent :: evs' =>
      dispatch_loop commands rx_gone_after sent evs'
  | KeyPress k :: evs' =>
      if is_quit k then ([], LoopBreak)
      else
        match command_parser_get commands k with
        | None => dispatch_loop commands rx_gone_after sent evs'
        | Some cmd =>
            match rx_gone_after with
            | Some n =>
                if Nat.leb n sent then ([], LoopErr (ChannelSend cmd))
                else
                  let (cs, ex) :=
                    dispatch_loop commands rx_gone_after (S sent) evs' in
                  (cmd :: cs, ex)
            | None =>
                let (cs, ex) := dispatch_loop commands rx_gone_after (S sent) evs' in
                (cmd :: cs, ex)
            end
        end
  end.

Inductive DispatchResult : Type :=
| DispatchOk
| DispatchErr (e : AppError)
| DispatchRunning.

(** [CommandDispatcher::run]: raw mode is enabled before the loop and
    disabled after it on the [break] path only; the [?] on [send] returns
    before [disable_raw_mode].  Returns the commands sent, the result and
    whether raw mode is still on. *)
Definition dispatcher_run (rx_gone_after : option nat) (evs : list TermEvent)
  : list Command * DispatchResult * bool :=
  let raw_mode := true in
  let (cs, ex) := dispatch_loop command_parser_new rx_gone_after 0 evs in
  match ex with
  | LoopBreak => let raw_mode := false in (cs, DispatchOk, raw_mode)
  | LoopErr e => (cs, DispatchErr e, raw_mode)
  | LoopRunning => (cs, DispatchRunning, raw_mode)
  end.

End CommandParser.

(** ** Auxiliary definitions for the statements *)

(** The "10 seconds left" notifications of an uninterrupted countdown
    from [n]. *)
Definition ten_notices (t : SessionTimer) (n : N) : list Effect :=
  if 10 <=? n then [Notify (ten_secs_msg t)] else [].

(** Events that leave a paused timer paused: silent seconds and commands
    other than [Resume] and [PauseResume]. *)
Definition non_resume (e : Event) : Prop :=
  match e with
  | EvTick => True
  | EvCmd c => c <> Resume /\ c <> PauseResume
  | EvHangup => False
  end.

(** [chain R x l]: [R] relates every element of [x :: l] to the next. *)
Fixpoint chain {A : Type} (R : A -> A -> Prop) (x : A) (l : list A) : Prop :=
  match l with
  | [] => True
  | y :: l' => R x y /\ chain R y l'
  end.

(** The change of [remaining_secs] across one pass [x] to [y]. *)
Definition remaining_step (t : SessionTimer) (x y : LoopState) : Prop :=
  0 < remaining_secs x /\
  (remaining_secs y = remaining_secs x - 1 \/
   remaining_secs y = remaining_secs x \/
   remaining_secs y = duration t).


(** The commands that the key presses of [evs] map to, in order. *)
Definition parsed_commands (key_display : KeyCode -> string)
    (evs : list TermEvent) : list Command :=
  flat_map (fun e =>
              match e with
              | KeyPress k =>
                  match command_parser_get key_display
                          (command_parser_new key_display) k with
                  | Some c => [c]
                  | None => []
                  end
              | _ => []
              end) evs.

(** Events that are not a quit key press. *)
Definition not_quit (e : TermEvent) : Prop :=
  match e with
  | KeyPress k => is_quit k = false
  | _ => True
  end.

(** A display of key codes used to instantiate the dispatcher statements. *)
Fixpoint hashes (n : nat) : string :=
  match n with
  | O => "##"
  | S k => String "#" (hashes k)
  end.

Definition demo_key_display (k : KeyCode) : string :=
  match k with
  | Char c => String c EmptyString
  | Esc => "Esc"
  | OtherKey n => hashes n
  end.

(** Concrete timers and configurations used to instantiate the claims. *)
Definition demo_break_timer : SessionTimer :=
  mkTimer 3 (ShortBreak "Break time") 1 4 true.

Definition demo_work_timer : SessionTimer :=
  mkTimer 3 (Work "Work session") 1 4 true.

Definition demo_config : FlagMain.Config := FlagMain.mkConfig 1 1 1 2 false.

(** ** Helper lemmas on the session timer *)


Lemma recv_ticks (ticks rest : list Event) :
  Forall (eq EvTick) ticks -> recv (ticks ++ rest) = recv rest.
Proof.
  induction 1 as [|e ticks He _ IH]; [reflexivity|].
  subst e; exact IH.
Qed.

Lemma body_tick_running t s evs :
  is_paused s = false -> 0 < remaining_secs s ->
  body t s (EvTick :: evs) =
  (Continue (mkState (remaining_secs s - 1) false (pos s + 1)) evs,
   head_effects t s).
Proof.
  intros Hp Hr; unfold body; rewrite Hp; simpl.
  unfold u64_sub1; destruct (N.eqb_spec (remaining_secs s) 0); [lia|].
  reflexivity.
Qed.

(** Uninterrupted countdown: [n] silent seconds take a running timer with
    [n] seconds left to the end of the loop, whatever follows them. *)
Lemma run_loop_ticks t (n : nat) :
  forall (fuel : nat) p rest, (n < fuel)%nat ->
  run_loop fuel t (mkState (N.of_nat n) false p) (repeat EvTick n ++ rest) =
  (Done (mkState 0 false (p + N.of_nat n)) rest,
   ten_notices t (N.of_nat n) ++ finish t (mkState 0 false (p + N.of_nat n))).
Proof.
  induction n as [|n IH]; intros fuel p rest Hf.
  - destruct fuel as [|fuel]; [lia|]. simpl.
    rewrite N.add_0_r; reflexivity.
  - destruct fuel as [|fuel]; [lia|].
    cbn [run_loop remaining_secs].
    replace (0 <? N.of_nat (S n)) with true by (symmetry; apply N.ltb_lt; lia).
    cbn [repeat app].
    rewrite body_tick_running by (cbn [remaining_secs is_paused]; lia).
    cbn [remaining_secs pos].
    replace (N.of_nat (S n) - 1) with (N.of_nat n) by lia.
    rewrite (IH fuel (p + 1) rest) by lia.
    replace (p + 1 + N.of_nat n) with (p + N.of_nat (S n)) by lia.
    f_equal. rewrite app_assoc. f_equal.
    unfold head_effects, ten_notices; cbn [remaining_secs].
    destruct (N.eqb_spec (N.of_nat (S n)) 10) as [E|E].
    + replace (10 <=? N.of_nat n) with false by (symmetry; apply N.leb_gt; lia).
      replace (10 <=? N.of_nat (S n)) with true by (symmetry; apply N.leb_le; lia).
      reflexivity.
    + destruct (N.leb_spec 10 (N.of_nat n)) as [L|L].
      * replace (10 <=? N.of_nat (S n)) with true by (symmetry; apply N.leb_le; lia).
        reflexivity.
      * replace (10 <=? N.of_nat (S n)) with false by (symmetry; apply N.leb_gt; lia).
        reflexivity.
Qed.

(** A timer with more seconds left than silent seconds to come is still
    counting down when the timeline ends. *)
Lemma run_loop_ticks_pending t (k : nat) :
  forall fuel m p, N.of_nat k < m ->
  fst (run_loop fuel t (mkState m false p) (repeat EvTick k)) = Pending.
Proof.
  induction k as [|k IH]; intros fuel m p Hk;
    destruct fuel as [|fuel]; try reflexivity.
  - cbn [run_loop remaining_secs].
    replace (0 <? m) with true by (symmetry; apply N.ltb_lt; lia).
    reflexivity.
  - cbn [run_loop remaining_secs].
    replace (0 <? m) with true by (symmetry; apply N.ltb_lt; lia).
    cbn [repeat].
    rewrite body_tick_running by (cbn [remaining_secs is_paused]; lia).
    pose proof (IH fuel (m - 1) (p + 1) ltac:(lia)) as IH'.
    destruct (run_loop fuel t _ _) as [o e]. exact IH'.
Qed.

Lemma body_cmd_running t s c evs :
  is_paused s = false ->
  body t s (EvCmd c :: evs) =
  match c with
  | Skip =>
      if negb (is_work (session t)) then (Break s evs, head_effects t s)
      else (Continue s evs, head_effects t s)
  | Pause | PauseResume =>
      (Continue (mkState (remaining_secs s) true (pos s)) evs, head_effects t s)
  | Reset =>
      (Continue (mkState (duration t) false 0) evs, head_effects t s ++ [ResetEta])
  | Resume => (Continue s evs, head_effects t s)
  end.
Proof. intros Hp; unfold body; rewrite Hp; destruct c; reflexivity. Qed.

(** ** Claims about the session timer *)

(** C1: for a duration [D >= 1] and a channel on which nothing ever
    arrives, [run] leaves its loop in the completed state after exactly [D]
    timeouts: [remaining_secs] is 0, the bar has advanced [D] times, no
    further event is read, and the completion tone plays when sound is on;
    after fewer than [D] timeouts it is still counting down. *)
Theorem run_no_commands_completes (t : SessionTimer) :
  1 <= duration t ->
  (forall rest,
     run t (repeat EvTick (N.to_nat (duration t)) ++ rest) =
     (Done (mkState 0 false (duration t)) rest,
      ten_notices t (duration t) ++ (if sound t then [PlaySound] else []))) /\
  (forall k, (k < N.to_nat (duration t))%nat ->
     fst (run t (repeat EvTick k)) = Pending).
Proof.
  intros HD.
  assert (HN : duration t = N.of_nat (N.to_nat (duration t))) by lia.
  split.
  - intros rest. unfold run, init_state.
    remember (N.to_nat (duration t)) as n eqn:En.
    rewrite HN.
    rewrite run_loop_ticks
      by (rewrite length_app, repeat_length; lia).
    rewrite N.add_0_l. reflexivity.
  - intros k Hk. unfold run, init_state.
    apply run_loop_ticks_pending; lia.
Qed.

(** C3: in a running pass ([remaining_secs > 0], not paused), a [Reset]
    sets [remaining_secs] back to the construction-time duration and the
    bar position back to 0, and the timer stays running. *)
Theorem reset_restores_duration (t : SessionTimer) (s : LoopState) rest :
  0 < remaining_secs s -> is_paused s = false ->
  steps t s (EvCmd Reset :: rest) [mkState (duration t) false 0]
        (mkState (duration t) false 0) rest /\
  snd (body t s (EvCmd Reset :: rest)) = head_effects t s ++ [ResetEta].
Proof.
  intros Hr Hp. split.
  - econstructor; [exact Hr| |constructor].
    rewrite body_cmd_running by exact Hp. reflexivity.
  - rewrite body_cmd_running by exact Hp. reflexivity.
Qed.

(** C5: in a running pass of a break session, a [Skip] ends [run] at once
    with [Ok]: no further event is read, [remaining_secs] keeps its
    positive value, and the only effect is the "10 seconds left" notice
    due at the top of that pass; the completion tone does not play. *)
Theorem skip_aborts_break (t : SessionTimer) (s : LoopState) fuel rest :
  is_work (session t) = false ->
  0 < remaining_secs s -> is_paused s = false ->
  run_loop (S fuel) t s (EvCmd Skip :: rest) = (Done s rest, head_effects t s) /\
  Forall (fun e => e = Notify (ten_secs_msg t)) (head_effects t s).
Proof.
  intros Hw Hr Hp. split.
  - cbn [run_loop].
    replace (0 <? remaining_secs s) with true by (symmetry; apply N.ltb_lt; lia).
    rewrite body_cmd_running by exact Hp. rewrite Hw. simpl negb.
    unfold finish.
    replace (remaining_secs s =? 0) with false by (symmetry; apply N.eqb_neq; lia).
    simpl andb. rewrite app_nil_r. reflexivity.
  - unfold head_effects. destruct (_ =? 10); repeat constructor.
Qed.

(** C9: in a running pass of a work session a [Skip] is ignored: the
    state is unchanged, the loop goes on, and the session still runs to
    the end of its countdown when only silent seconds follow. *)
Theorem work_skip_ignored (t : SessionTimer) (s : LoopState) rest :
  is_work (session t) = true ->
  0 < remaining_secs s -> is_paused s = false ->
  steps t s (EvCmd Skip :: rest) [s] s rest /\
  forall fuel, (N.to_nat (remaining_secs s) + 1 < fuel)%nat ->
    fst (run_loop fuel t s
           (EvCmd Skip :: repeat EvTick (N.to_nat (remaining_secs s)) ++ rest)) =
    Done (mkState 0 false (pos s + remaining_secs s)) rest.
Proof.
  intros Hw Hr Hp. split.
  - econstructor; [exact Hr| |constructor].
    rewrite body_cmd_running by exact Hp. rewrite Hw. reflexivity.
  - intros fuel Hf. destruct fuel as [|fuel]; [lia|].
    cbn [run_loop].
    replace (0 <? remaining_secs s) with true by (symmetry; apply N.ltb_lt; lia).
    rewrite body_cmd_running by exact Hp. rewrite Hw. simpl negb. cbv iota.
    destruct s as [m paused p]; cbn [remaining_secs is_paused pos] in *; subst paused.
    assert (Hm : m = N.of_nat (N.to_nat m)) by lia.
    remember (N.to_nat m) as n eqn:En. rewrite Hm.
    rewrite run_loop_ticks by lia. reflexivity.
Qed.


Lemma body_tick_paused t s evs :
  is_paused s = true -> body t s (EvTick :: evs) = body t s evs.
Proof. intros Hp; unfold body; rewrite Hp; reflexivity. Qed.

Lemma steps_nil_inv t s evs s' evs' : steps t s evs [] s' evs' -> s = s'.
Proof. intros H; inversion H; reflexivity. Qed.

Lemma steps_same_first t s evs evs2 x ss s' evs' :
  body t s evs2 = body t s evs ->
  steps t s evs (x :: ss) s' evs' -> steps t s evs2 (x :: ss) s' evs'.
Proof.
  intros Hb H; inversion H; subst.
  econstructor; [eassumption| |eassumption]. rewrite Hb; eassumption.
Qed.

(** While paused, any run of silent seconds and non-resume commands keeps
    the state as it is; the next [Resume]/[PauseResume] unpauses it. *)
Lemma paused_until_resume t (sp : LoopState) r rest mid :
  is_paused sp = true -> 0 < remaining_secs sp ->
  (r = Resume \/ r = PauseResume) ->
  Forall non_resume mid ->
  exists ss,
    steps t sp (mid ++ EvCmd r :: rest) ss
          (mkState (remaining_secs sp) false (pos sp)) rest /\
    Forall (fun x => remaining_secs x = remaining_secs sp /\ pos x = pos sp) ss.
Proof.
  intros Hp Hr Hres Hmid.
  induction Hmid as [|e mid He _ IH].
  - exists [mkState (remaining_secs sp) false (pos sp)]. split.
    + econstructor; [exact Hr| |constructor].
      unfold body; rewrite Hp; simpl.
      destruct Hres as [-> | ->]; reflexivity.
    + repeat constructor.
  - destruct IH as [ss [Hss Hf]].
    destruct e as [c| |]; simpl in He.
    + exists (sp :: ss). split.
      * econstructor; [exact Hr| |exact Hss].
        unfold body; rewrite Hp; simpl.
        destruct c; try reflexivity; exfalso; tauto.
      * constructor; [split; reflexivity|exact Hf].
    + exists ss. split; [|exact Hf].
      destruct ss as [|x ss].
      * apply steps_nil_inv in Hss. rewrite Hss in Hp. discriminate.
      * eapply steps_same_first; [|exact Hss].
        apply body_tick_paused; exact Hp.
    + contradiction.
Qed.

(** C2: from a running pass, [Pause] (or [PauseResume]), then any number
    of silent seconds and non-resume commands, then [Resume] (or
    [PauseResume]) brings the loop back to exactly the running state it
    started from; every intermediate state has the same [remaining_secs]
    and bar position (only [is_paused] changes). *)
Theorem pause_resume_preserves (t : SessionTimer) (s : LoopState) p r mid rest :
  0 < remaining_secs s -> is_paused s = false ->
  (p = Pause \/ p = PauseResume) ->
  (r = Resume \/ r = PauseResume) ->
  Forall non_resume mid ->
  exists ss,
    steps t s (EvCmd p :: mid ++ EvCmd r :: rest) ss s rest /\
    Forall (fun x => remaining_secs x = remaining_secs s /\ pos x = pos s) ss.
Proof.
  intros Hr Hp Hpa Hres Hmid.
  set (sp := mkState (remaining_secs s) true (pos s)).
  destruct (paused_until_resume t sp r rest mid) as [ss [Hss Hf]];
    [reflexivity|exact Hr|exact Hres|exact Hmid|].
  exists (sp :: ss). split.
  - destruct s as [m paused q]; cbn [is_paused] in Hp; subst paused.
    econstructor; [exact Hr| |exact Hss].
    rewrite body_cmd_running by reflexivity.
    destruct Hpa as [-> | ->]; reflexivity.
  - constructor; [split; reflexivity|exact Hf].
Qed.

(** C6: a hang-up seen in a paused pass (through [recv], after any number
    of silent seconds) or in a running pass (through [recv_timeout]) makes
    [run] return [Err] with the matching [AppError] at once; the
    controller then starts no further session and surfaces the error. *)
Theorem channel_failure_stops :
  (forall t s fuel ticks rest,
     0 < remaining_secs s -> is_paused s = true -> Forall (eq EvTick) ticks ->
     run_loop (S fuel) t s (ticks ++ EvHangup :: rest) =
     (Failed (ChannelRecv RecvErr), head_effects t s)) /\
  (forall t s fuel rest,
     0 < remaining_secs s -> is_paused s = false ->
     run_loop (S fuel) t s (EvHangup :: rest) =
     (Failed (ChannelRecvTimeout Disconnected), head_effects t s)) /\
  (forall t plan evs e,
     fst (run t evs) = Failed e ->
     run_sessions (t :: plan) evs = ([t], CtrlFailed e)).
Proof.
  split; [|split].
  - intros t s fuel ticks rest Hr Hp Ht. cbn [run_loop].
    replace (0 <? remaining_secs s) with true by (symmetry; apply N.ltb_lt; lia).
    unfold body; rewrite Hp, recv_ticks by exact Ht. reflexivity.
  - intros t s fuel rest Hr Hp. cbn [run_loop].
    replace (0 <? remaining_secs s) with true by (symmetry; apply N.ltb_lt; lia).
    unfold body; rewrite Hp. reflexivity.
  - intros t plan evs e He. simpl. rewrite He. reflexivity.
Qed.

(** C7 (divergence): the "10 seconds left" notice is sent at the top of
    every pass of the loop, and a pass that only handles a command does not
    change [remaining_secs]; a [Resume] arriving while a 11-second work
    session is running with 10 seconds left makes the notice fire twice. *)
Theorem ten_secs_notice_twice :
  run (mkTimer 11 (Work "Work session") 1 4 true)
      ([EvTick; EvCmd Resume] ++ repeat EvTick 10) =
  (Done (mkState 0 false 11) [],
   [Notify "Work session: 00:10s left"; Notify "Work session: 00:10s left";
    PlaySound]).
Proof. vm_compute. reflexivity. Qed.


(** One pass that continues changes [remaining_secs] only by the guarded
    [remaining_secs -= 1], by [Reset], or not at all. *)
Lemma body_continue_remaining t s evs s' evs' eff :
  0 < remaining_secs s ->
  body t s evs = (Continue s' evs', eff) ->
  remaining_secs s' = remaining_secs s - 1 \/
  remaining_secs s' = remaining_secs s \/
  remaining_secs s' = duration t.
Proof.
  intros Hr H. unfold body in H.
  destruct (is_paused s).
  - destruct (recv evs) as [[[c|e]|] r]; [destruct c| |];
      inversion H; subst; simpl; auto.
  - destruct (recv_timeout evs) as [[[c|[|]]|] r];
      [destruct c; try destruct (negb _)| | |];
      inversion H; subst; simpl; auto.
    left. unfold u64_sub1.
    destruct (N.eqb_spec (remaining_secs s) 0); [lia|reflexivity].
Qed.


Lemma steps_remaining t s evs ss s' evs' :
  steps t s evs ss s' evs' ->
  remaining_secs s <= duration t ->
  Forall (fun x => remaining_secs x <= duration t) ss /\
  chain (remaining_step t) s ss.
Proof.
  induction 1 as [|s evs s1 evs1 eff ss s2 evs2 Hr Hb _ IH]; intros Hle.
  - split; [constructor|exact I].
  - pose proof (body_continue_remaining t s evs s1 evs1 eff Hr Hb) as Hc.
    assert (H1 : remaining_secs s1 <= duration t) by lia.
    destruct (IH H1) as [Hf Hch].
    split; [constructor; assumption|].
    split; [split; assumption|exact Hch].
Qed.

(** C10: along every execution of [run], [remaining_secs] stays within
    [0 ..= duration]; every pass starts with [remaining_secs > 0] and
    changes it only to [remaining_secs - 1] (so the [u64] decrement never
    wraps), to [duration], or not at all. *)
Theorem remaining_within_duration (t : SessionTimer) evs ss s' evs' :
  steps t (init_state t) evs ss s' evs' ->
  Forall (fun x => remaining_secs x <= duration t) (init_state t :: ss) /\
  chain (remaining_step t) (init_state t) ss.
Proof.
  intros H. destruct (steps_remaining t _ _ _ _ _ H) as [Hf Hc];
    [simpl; lia|].
  split; [constructor; [simpl; lia|exact Hf]|exact Hc].
Qed.

(** ** Claims about the controller of [src/main.rs] *)

Lemma run_timer_counter mins ty skips ns k :
  snd (FlagMain.run_timer mins ty skips ns k) =
  if is_work ty && negb (fst (fst (FlagMain.run_timer mins ty skips ns k)))
  then (k + 1) mod u64_modulus else k.
Proof.
  unfold FlagMain.run_timer.
  destruct (FlagMain.countdown _ _ _) as [sk eff].
  destruct sk; simpl; [destruct (is_work ty); reflexivity|].
  destruct (is_work ty); reflexivity.
Qed.

Lemma u64_modulus_pos : u64_modulus <> 0.
Proof. unfold u64_modulus; lia. Qed.

Lemma main_from_counter cfg (n : nat) :
  forall c envs k, (List.length envs <= n)%nat -> k < u64_modulus ->
  snd (FlagMain.main_from cfg c envs k) =
  (k + N.of_nat (FlagMain.completed_work (fst (FlagMain.main_from cfg c envs k))))
    mod u64_modulus.
Proof.
  induction n as [|n IH]; intros c envs k Hl Hk.
  - destruct envs; [|simpl in Hl; lia].
    simpl. destruct (FlagMain.cycle_head cfg c); simpl;
      rewrite N.add_0_r, N.mod_small; auto.
  - destruct envs as [|ew envs1].
    { simpl. destruct (FlagMain.cycle_head cfg c); simpl;
        rewrite N.add_0_r, N.mod_small; auto. }
    cbn [FlagMain.main_from].
    destruct (FlagMain.cycle_head cfg c) as [cur|];
      [|simpl; rewrite N.add_0_r, N.mod_small; auto].
    pose proof (run_timer_counter (FlagMain.work_duration cfg)
                  FlagMain.work_session (FlagMain.skips ew)
                  (FlagMain.no_sound cfg) k) as Hk1.
    destruct (FlagMain.run_timer _ _ _ _ _) as [[w_sk e1] k1].
    cbn [fst snd is_work FlagMain.work_session andb] in Hk1.
    assert (Hk1lt : k1 < u64_modulus).
    { rewrite Hk1. destruct (negb w_sk); [apply N.mod_lt, u64_modulus_pos|exact Hk]. }
    destruct (FlagMain.reset_after ew).
    + pose proof (IH cur envs1 k1 ltac:(simpl in Hl; lia) Hk1lt) as IH1.
      destruct (FlagMain.main_from cfg cur envs1 k1) as [rs k'].
      cbn [fst snd] in *. rewrite IH1, Hk1.
      unfold FlagMain.completed_work; cbn [filter FlagMain.run_type
        FlagMain.run_skipped FlagMain.work_session is_work andb].
      destruct w_sk; cbn [negb List.length]; [reflexivity|].
      rewrite N.Div0.add_mod_idemp_l.
      f_equal. lia.
    + destruct envs1 as [|eb envs2].
      * cbn [fst snd]. rewrite Hk1.
        unfold FlagMain.completed_work; cbn [filter FlagMain.run_type
          FlagMain.run_skipped FlagMain.work_session is_work andb].
        destruct w_sk; cbn [negb List.length]; simpl N.of_nat.
        -- rewrite N.add_0_r, N.mod_small; auto.
        -- reflexivity.
      * destruct (FlagMain.break_of cfg cur) as [bty bmins] eqn:Eb.
        assert (Hb : is_work bty = false).
        { unfold FlagMain.break_of in Eb.
          destruct (cur <? FlagMain.cycles cfg); inversion Eb; reflexivity. }
        pose proof (run_timer_counter bmins bty (FlagMain.skips eb)
                      (FlagMain.no_sound cfg) k1) as Hk2.
        destruct (FlagMain.run_timer _ _ _ _ _) as [[b_sk e2] k2].
        cbn [fst snd] in Hk2. rewrite Hb in Hk2. simpl in Hk2. subst k2.
        match goal with
        | |- context [FlagMain.main_from cfg ?nx envs2 k1] =>
            pose proof (IH nx envs2 k1 ltac:(simpl in Hl; lia) Hk1lt) as IH1;
            destruct (FlagMain.main_from cfg nx envs2 k1) as [rs k']
        end.
        cbn [fst snd] in *. rewrite IH1, Hk1.
        unfold FlagMain.completed_work; cbn [filter FlagMain.run_type
          FlagMain.run_skipped FlagMain.work_session is_work andb].
        rewrite Hb. cbn [andb].
        destruct w_sk; cbn [negb List.length]; [reflexivity|].
        rewrite N.Div0.add_mod_idemp_l.
        f_equal. lia.
Qed.

(** C4: [run_timer] adds 1 (modulo [2^64], the [AtomicU64] increment) to
    the completed-work counter exactly when the session is a work session
    that was not skipped, and leaves it unchanged otherwise (in particular
    for every break); as [main] touches the counter only through
    [run_timer], the counter after any prefix of the run is the number of
    work sessions run to completion. *)
Theorem counter_counts_completed_work :
  (forall mins ty skips ns k,
     snd (FlagMain.run_timer mins ty skips ns k) =
     if is_work ty && negb (fst (fst (FlagMain.run_timer mins ty skips ns k)))
     then (k + 1) mod u64_modulus else k) /\
  (forall mins ty skips ns k, is_work ty = false ->
     snd (FlagMain.run_timer mins ty skips ns k) = k) /\
  (forall cfg envs,
     snd (FlagMain.main_run cfg envs) =
     N.of_nat (FlagMain.completed_work (fst (FlagMain.main_run cfg envs)))
       mod u64_modulus).
Proof.
  split; [|split].
  - apply run_timer_counter.
  - intros mins ty skips ns k Hw. rewrite run_timer_counter, Hw. reflexivity.
  - intros cfg envs. unfold FlagMain.main_run.
    rewrite (main_from_counter cfg (List.length envs) 1 envs 0)
      by (unfold u64_modulus; lia).
    reflexivity.
Qed.

Lemma cycle_head_some cfg c :
  1 <= FlagMain.cycles cfg ->
  FlagMain.cycle_head cfg c =
  Some (if c <=? FlagMain.cycles cfg then c else 1).
Proof.
  intros H. unfold FlagMain.cycle_head.
  destruct (c <=? FlagMain.cycles cfg); [reflexivity|].
  replace (1 <=? FlagMain.cycles cfg) with true by (symmetry; apply N.leb_le; lia).
  reflexivity.
Qed.

Lemma break_of_spec cfg c :
  c <= FlagMain.cycles cfg ->
  FlagMain.break_of cfg c = FlagMain.spec_break cfg c.
Proof.
  intros H. unfold FlagMain.break_of, FlagMain.spec_break.
  destruct (N.ltb_spec c (FlagMain.cycles cfg));
    destruct (N.eqb_spec c (FlagMain.cycles cfg)); try lia; reflexivity.
Qed.

Section MainOrder.

Variable cfg : FlagMain.Config.
Hypothesis Hcyc1 : 1 <= FlagMain.cycles cfg.
Hypothesis Hcyc2 : FlagMain.cycles cfg < u64_modulus - 1.


Lemma main_from_order (n : nat) :
  forall c envs k, (List.length envs <= n)%nat ->
  1 <= c <= FlagMain.cycles cfg + 1 ->
  List.length (fst (FlagMain.main_from cfg c envs k)) = List.length envs /\
  (forall r, hd_error (fst (FlagMain.main_from cfg c envs k)) = Some r ->
     FlagMain.session_key r =
     (FlagMain.work_session, FlagMain.work_duration cfg, FlagMain.first_cycle cfg c)) /\
  FlagMain.follows cfg (fst (FlagMain.main_from cfg c envs k)) envs /\
  Forall (fun r => 1 <= FlagMain.run_cycle r <= FlagMain.cycles cfg)
         (fst (FlagMain.main_from cfg c envs k)).
Proof.
  induction n as [|n IH]; intros c envs k Hl Hc.
  - destruct envs; [|simpl in Hl; lia].
    simpl. destruct (FlagMain.cycle_head cfg c); simpl;
      (split; [reflexivity|split; [discriminate|split; [exact I|constructor]]]).
  - destruct envs as [|ew envs1].
    { simpl. destruct (FlagMain.cycle_head cfg c); simpl;
        (split; [reflexivity|split; [discriminate|split; [exact I|constructor]]]). }
    cbn [FlagMain.main_from]. rewrite cycle_head_some by exact Hcyc1.
    fold (FlagMain.first_cycle cfg c).
    assert (Hcur : 1 <= FlagMain.first_cycle cfg c <= FlagMain.cycles cfg).
    { unfold FlagMain.first_cycle. destruct (N.leb_spec c (FlagMain.cycles cfg)); lia. }
    set (cur := FlagMain.first_cycle cfg c) in *.
    assert (Hfc : FlagMain.first_cycle cfg cur = cur).
    { unfold FlagMain.first_cycle. replace (cur <=? FlagMain.cycles cfg) with true
        by (symmetry; apply N.leb_le; lia). reflexivity. }
    destruct (FlagMain.run_timer _ _ _ _ _) as [[w_sk e1] k1].
    destruct (FlagMain.reset_after ew) eqn:Er.
    + destruct (IH cur envs1 k1 ltac:(simpl in Hl; lia) ltac:(lia))
        as [Hlen [Hhd [Hfol Hall]]].
      destruct (FlagMain.main_from cfg cur envs1 k1) as [rs k'].
      cbn [fst] in *.
      split; [simpl; rewrite Hlen; reflexivity|].
      split; [intros r Hr; inversion Hr; reflexivity|].
      split; [|constructor; [simpl; lia|exact Hall]].
      destruct rs as [|r' rs']; [exact I|].
      simpl. rewrite Er. split; [|exact Hfol].
      unfold FlagMain.next_session. simpl.
      rewrite (Hhd r' eq_refl), Hfc. reflexivity.
    + destruct envs1 as [|eb envs2].
      { simpl. split; [reflexivity|].
        split; [intros r Hr; inversion Hr; reflexivity|].
        split; [exact I|constructor; [simpl; lia|constructor]]. }
      rewrite (break_of_spec cfg cur) by lia.
      destruct (FlagMain.spec_break cfg cur) as [bty bmins] eqn:Eb.
      destruct (FlagMain.run_timer _ _ _ _ _) as [[b_sk e2] k2].
      set (nx := if FlagMain.reset_after eb then cur
                 else (cur + 1) mod u64_modulus).
      assert (Hnx : 1 <= nx <= FlagMain.cycles cfg + 1).
      { unfold nx. destruct (FlagMain.reset_after eb); [lia|].
        rewrite N.mod_small; lia. }
      destruct (IH nx envs2 k2 ltac:(simpl in Hl; lia) Hnx)
        as [Hlen [Hhd [Hfol Hall]]].
      destruct (FlagMain.main_from cfg nx envs2 k2) as [rs k'].
      cbn [fst] in *.
      split; [simpl; rewrite Hlen; reflexivity|].
      split; [intros r Hr; inversion Hr; reflexivity|].
      split.
      * simpl. rewrite Er. split.
        { unfold FlagMain.next_session, FlagMain.session_key. simpl.
          rewrite Eb. reflexivity. }
        destruct rs as [|r' rs']; [exact I|].
        split; [|exact Hfol].
        rewrite (Hhd r' eq_refl).
        unfold FlagMain.next_session. cbn [FlagMain.run_cycle FlagMain.run_type].
        unfold FlagMain.spec_break in Eb.
        assert (Hbt : match bty with Work _ => False | _ => True end)
          by (destruct (cur =? FlagMain.cycles cfg); inversion Eb; exact I).
        unfold nx. destruct (FlagMain.reset_after eb); [rewrite Hfc; reflexivity|].
        destruct bty as [l|l|l]; [contradiction| |];
        (rewrite N.mod_small by lia; unfold FlagMain.first_cycle;
         destruct (N.ltb_spec cur (FlagMain.cycles cfg));
         destruct (N.leb_spec (cur + 1) (FlagMain.cycles cfg));
         try lia; reflexivity).
      * constructor; [simpl; lia|].
        constructor; [simpl; lia|exact Hall].
Qed.

End MainOrder.

(** C8 (as amended): for [1 <= cycles < 2^64 - 1], [main] runs one session
    per environment (the sequence never ends), the first one is the work
    session of cycle 1, every cycle index lies in [1 ..= cycles], and each
    session is the one [next_session] prescribes: absent a reset request a
    work session of cycle [c] is followed by the break of cycle [c] (long
    exactly when [c = cycles]) and that break by the work session of cycle
    [c + 1], or of cycle 1 after the last cycle; after a reset request
    observed by [check_reset] the work session of the same cycle runs
    again. *)
Theorem main_session_order (cfg : FlagMain.Config) envs :
  1 <= FlagMain.cycles cfg -> FlagMain.cycles cfg < u64_modulus - 1 ->
  List.length (fst (FlagMain.main_run cfg envs)) = List.length envs /\
  (forall r, hd_error (fst (FlagMain.main_run cfg envs)) = Some r ->
     FlagMain.session_key r =
     (FlagMain.work_session, FlagMain.work_duration cfg, 1)) /\
  FlagMain.follows cfg (fst (FlagMain.main_run cfg envs)) envs /\
  Forall (fun r => 1 <= FlagMain.run_cycle r <= FlagMain.cycles cfg)
         (fst (FlagMain.main_run cfg envs)).
Proof.
  intros H1 H2. unfold FlagMain.main_run.
  destruct (main_from_order cfg H1 H2 (List.length envs) 1 envs 0
              (le_n _) ltac:(lia)) as [Hl [Hh [Hf Ha]]].
  split; [exact Hl|]. split; [|split; assumption].
  intros r Hr. rewrite (Hh r Hr). unfold FlagMain.first_cycle.
  replace (1 <=? FlagMain.cycles cfg) with true by (symmetry; apply N.leb_le; lia).
  reflexivity.
Qed.

(** C8 (counterexample): with two cycles, a reset request ('r') during the
    first work session makes [main] run the work session of cycle 1 a
    second time instead of the break that should follow it. *)
Lemma main_reset_reruns_work :
  fst (FlagMain.main_run demo_config
         [FlagMain.mkEnv [] true; FlagMain.mkEnv [] false;
          FlagMain.mkEnv [] false]) =
  [FlagMain.mkRun FlagMain.work_session 1 1 false;
   FlagMain.mkRun FlagMain.work_session 1 1 false;
   FlagMain.mkRun (ShortBreak "Break time") 1 1 false].
Proof. vm_compute. reflexivity. Qed.

(** ** Instances of the claims at concrete inputs *)

Lemma run_no_commands_completes_witness :
  1 <= duration demo_break_timer /\
  run demo_break_timer (repeat EvTick 3 ++ [EvCmd Skip]) =
  (Done (mkState 0 false 3) [EvCmd Skip],
   ten_notices demo_break_timer 3 ++ [PlaySound]).
Proof.
  split; [simpl; lia|].
  exact (proj1 (run_no_commands_completes demo_break_timer ltac:(simpl; lia))
               [EvCmd Skip]).
Defined.

Lemma pause_resume_preserves_witness :
  exists ss,
    steps demo_break_timer (mkState 2 false 1)
          (EvCmd Pause :: [EvTick; EvCmd Reset] ++ EvCmd Resume :: []) ss
          (mkState 2 false 1) [] /\
    Forall (fun x => remaining_secs x = 2 /\ pos x = 1) ss.
Proof.
  apply (pause_resume_preserves demo_break_timer (mkState 2 false 1)
           Pause Resume [EvTick; EvCmd Reset] []).
  - simpl; lia.
  - reflexivity.
  - left; reflexivity.
  - left; reflexivity.
  - repeat constructor; discriminate.
Defined.

Lemma reset_restores_duration_witness :
  0 < remaining_secs (mkState 2 false 1) /\
  steps demo_break_timer (mkState 2 false 1) [EvCmd Reset]
        [mkState 3 false 0] (mkState 3 false 0) [].
Proof.
  split; [simpl; lia|].
  exact (proj1 (reset_restores_duration demo_break_timer (mkState 2 false 1) []
                  ltac:(simpl; lia) eq_refl)).
Defined.

Lemma counter_counts_completed_work_witness :
  snd (FlagMain.run_timer 1 (ShortBreak "Break time") [] false 5) = 5.
Proof.
  exact (proj1 (proj2 counter_counts_completed_work) 1 (ShortBreak "Break time")
           [] false 5 eq_refl).
Defined.

Lemma skip_aborts_break_witness :
  run_loop 4 demo_break_timer (mkState 2 false 1) [EvCmd Skip; EvTick] =
  (Done (mkState 2 false 1) [EvTick], []).
Proof.
  exact (proj1 (skip_aborts_break demo_break_timer (mkState 2 false 1) 3%nat [EvTick]
                  eq_refl ltac:(simpl; lia) eq_refl)).
Defined.

Lemma channel_failure_stops_witness :
  run_loop 1 demo_work_timer (mkState 2 true 1) [EvTick; EvHangup] =
  (Failed (ChannelRecv RecvErr), []).
Proof.
  exact (proj1 channel_failure_stops demo_work_timer (mkState 2 true 1) 0%nat
           [EvTick] [] ltac:(simpl; lia) eq_refl ltac:(repeat constructor)).
Defined.

Lemma main_session_order_witness :
  FlagMain.follows demo_config
    (fst (FlagMain.main_run demo_config
            [FlagMain.mkEnv [] false; FlagMain.mkEnv [] true;
             FlagMain.mkEnv [] false]))
    [FlagMain.mkEnv [] false; FlagMain.mkEnv [] true; FlagMain.mkEnv [] false].
Proof.
  exact (proj1 (proj2 (proj2 (main_session_order demo_config _
                                ltac:(simpl; lia) ltac:(vm_compute; reflexivity))))).
Defined.

Lemma work_skip_ignored_witness :
  steps demo_work_timer (mkState 2 false 1) [EvCmd Skip] [mkState 2 false 1]
        (mkState 2 false 1) [].
Proof.
  exact (proj1 (work_skip_ignored demo_work_timer (mkState 2 false 1) []
                  eq_refl ltac:(simpl; lia) eq_refl)).
Defined.

Lemma remaining_within_duration_witness :
  Forall (fun x => remaining_secs x <= duration demo_break_timer)
         [init_state demo_break_timer; mkState 2 false 1].
Proof.
  refine (proj1 (remaining_within_duration demo_break_timer [EvTick]
                  [mkState 2 false 1] (mkState 2 false 1) [] _)).
  econstructor; [simpl; lia|vm_compute; reflexivity|constructor].
Defined.

(** ** Further properties of [SessionTimer::run] *)



Lemma body_no_tone t s evs i eff :
  body t s evs = (i, eff) -> ~ In PlaySound eff.
Proof.
  intros H. unfold body, head_effects in H.
  destruct (remaining_secs s =? 10), (is_paused s);
    [destruct (recv evs) as [[[c|e]|] r]; [destruct c| |]
    |destruct (recv_timeout evs) as [[[c|[|]]|] r];
       [destruct c; try destruct (negb _)| | |]
    |destruct (recv evs) as [[[c|e]|] r]; [destruct c| |]
    |destruct (recv_timeout evs) as [[[c|[|]]|] r];
       [destruct c; try destruct (negb _)| | |]];
    inversion H; subst; simpl; intuition discriminate.
Qed.


(** X2: a work session can only end at zero: whenever [run] returns [Ok]
    for a work session, [remaining_secs] is 0 (a [Skip] never ends it). *)
Theorem work_session_ends_at_zero (t : SessionTimer) (fuel : nat) :
  is_work (session t) = true ->
  forall s evs s' rest eff,
  run_loop fuel t s evs = (Done s' rest, eff) -> remaining_secs s' = 0.
Proof.
  intros Hw. induction fuel as [|fuel IH]; intros s evs s' rest eff H;
    simpl in H; [discriminate|].
  destruct (N.ltb_spec 0 (remaining_secs s)).
  - destruct (body t s evs) as [i e] eqn:Eb.
    destruct i as [s1 evs1|s1 evs1| |]; try discriminate.
    + destruct (run_loop fuel t s1 evs1) as [o e'] eqn:Er.
      inversion H; subst. eapply IH; exact Er.
    + exfalso. unfold body in Eb. destruct (is_paused s).
      * destruct (recv evs) as [[[c|e0]|] r]; [destruct c| |]; discriminate.
      * destruct (recv_timeout evs) as [[[c|[|]]|] r];
          [destruct c| | |]; try discriminate.
        rewrite Hw in Eb. discriminate.
  - inversion H; subst. lia.
Qed.

(** X3: the completion tone is played at most once, as the very last
    effect of [run], and only when [run] returns [Ok] with
    [remaining_secs = 0] and sound enabled; a failed, skipped or
    unfinished run never plays it. *)
Theorem tone_only_at_completion (t : SessionTimer) (fuel : nat) :
  forall s evs, exists E,
  ~ In PlaySound E /\
  snd (run_loop fuel t s evs) =
  E ++ match fst (run_loop fuel t s evs) with
       | Done s' _ => finish t s'
       | _ => []
       end.
Proof.
  induction fuel as [|fuel IH]; intros s evs; simpl.
  - exists []. split; [intros []|reflexivity].
  - destruct (0 <? remaining_secs s).
    + destruct (body t s evs) as [i e] eqn:Eb.
      pose proof (body_no_tone t s evs i e Eb) as Hn.
      destruct i as [s1 evs1|s1 evs1| |].
      * destruct (IH s1 evs1) as [E [HE Heq]].
        destruct (run_loop fuel t s1 evs1) as [o e'].
        simpl in *. exists (e ++ E). split.
        -- rewrite in_app_iff. tauto.
        -- rewrite Heq, app_assoc. reflexivity.
      * exists e. split; [exact Hn|reflexivity].
      * exists e. split; [exact Hn|simpl; rewrite app_nil_r; reflexivity].
      * exists e. split; [exact Hn|simpl; rewrite app_nil_r; reflexivity].
    + exists []. split; [intros []|reflexivity].
Qed.

(** One continuing pass keeps [pos + remaining_secs] unchanged. *)
Lemma body_continue_progress t s evs s' evs' eff :
  0 < remaining_secs s -> pos s + remaining_secs s = duration t ->
  body t s evs = (Continue s' evs', eff) ->
  pos s' + remaining_secs s' = duration t.
Proof.
  intros Hr Hinv H. unfold body in H.
  destruct (is_paused s).
  - destruct (recv evs) as [[[c|e]|] r]; [destruct c| |];
      inversion H; subst; simpl; lia.
  - destruct (recv_timeout evs) as [[[c|[|]]|] r];
      [destruct c; try destruct (negb _)| | |];
      inversion H; subst; simpl; try lia.
    unfold u64_sub1. destruct (N.eqb_spec (remaining_secs s) 0); lia.
Qed.

(** X4: along every execution of [run], the progress bar position plus
    [remaining_secs] equals the duration: each silent second moves one
    unit from the countdown to the bar, [Reset] puts the bar back to 0 and
    the countdown to the duration, and nothing else touches either. *)
Theorem progress_plus_remaining (t : SessionTimer) evs ss s' evs' :
  steps t (init_state t) evs ss s' evs' ->
  Forall (fun x => pos x + remaining_secs x = duration t) ss /\
  pos s' + remaining_secs s' = duration t.
Proof.
  assert (G : forall s evs ss s' evs',
            steps t s evs ss s' evs' ->
            pos s + remaining_secs s = duration t ->
            Forall (fun x => pos x + remaining_secs x = duration t) ss /\
            pos s' + remaining_secs s' = duration t).
  { induction 1 as [|s0 e0 s1 e1 eff ss0 s2 e2 Hr Hb _ IH]; intros Hi.
    - split; [constructor|exact Hi].
    - pose proof (body_continue_progress t s0 e0 s1 e1 eff Hr Hi Hb) as H1.
      destruct (IH H1) as [Hf Hl]. split; [constructor; assumption|exact Hl]. }
  intros H. apply (G _ _ _ _ _ H). simpl. lia.
Qed.

(** ** Properties of the command dispatcher *)


Section ParserProofs.

Variable key_display : KeyCode -> string.
Hypothesis key_display_inj :
  forall a b, key_display a = key_display b -> a = b.



End ParserProofs.

Section DispatcherProofs.

Variable key_display : KeyCode -> string.

Lemma dispatch_loop_prefix g pre rest :
  Forall not_quit pre ->
  forall sent,
  match g with
  | Some n => (sent + List.length (parsed_commands key_display pre) <= n)%nat
  | None => True
  end ->
  dispatch_loop key_display (command_parser_new key_display) g sent (pre ++ rest) =
  let (cs, ex) :=
    dispatch_loop key_display (command_parser_new key_display) g
      (sent + List.length (parsed_commands key_display pre)) rest in
  (parsed_commands key_display pre ++ cs, ex).
Proof.
  induction 1 as [|e pre He Hpre IH]; intros sent Hcap.
  - cbn [app parsed_commands flat_map List.length]. rewrite Nat.add_0_r.
    destruct (dispatch_loop _ _ _ _ _); reflexivity.
  - destruct e as [| |k].
    + apply IH. exact Hcap.
    + apply IH. exact Hcap.
    + simpl in He. cbn [app dispatch_loop]. rewrite He.
      unfold parsed_commands in Hcap |- *. cbn [flat_map] in Hcap |- *.
      fold (parsed_commands key_display pre) in Hcap |- *.
      destruct (command_parser_get key_display (command_parser_new key_display) k)
        as [c|] eqn:Eg.
      * cbn [app List.length] in Hcap |- *.
        assert (Hs : match g with
                     | Some n => (S sent + List.length (parsed_commands key_display pre) <= n)%nat
                     | None => True end)
          by (destruct g; [lia|exact I]).
        pose proof (IH (S sent) Hs) as IH'.
        replace (sent + S (List.length (parsed_commands key_display pre)))%nat
          with (S sent + List.length (parsed_commands key_display pre))%nat by lia.
        destruct g as [n|].
        -- replace (Nat.leb n sent) with false by (symmetry; apply Nat.leb_gt; lia).
           rewrite IH'.
           destruct (dispatch_loop _ _ _ _ rest); reflexivity.
        -- rewrite IH'. destruct (dispatch_loop _ _ _ _ rest); reflexivity.
      * cbn [app]. apply IH. exact Hcap.
Qed.

(** X6: while the receiver is alive, [CommandDispatcher::run] sends the
    commands of the key presses in the order they were read, up to the
    first quit key ([q], [Esc] or [Ctrl+C]); at that key it stops reading,
    disables raw mode and returns [Ok]; with no quit key it keeps running
    with raw mode on. *)
Theorem dispatcher_sends_until_quit pre q post :
  Forall not_quit pre ->
  (is_quit q = true ->
   dispatcher_run key_display None (pre ++ KeyPress q :: post) =
   (parsed_commands key_display pre, DispatchOk, false)) /\
  dispatcher_run key_display None pre =
  (parsed_commands key_display pre, DispatchRunning, true).
Proof.
  intros Hpre. split.
  - intros Hq. unfold dispatcher_run.
    rewrite (dispatch_loop_prefix None pre _ Hpre 0 I).
    cbn [dispatch_loop]. rewrite Hq. rewrite app_nil_r. reflexivity.
  - unfold dispatcher_run.
    rewrite <- (app_nil_r pre) at 1.
    rewrite (dispatch_loop_prefix None pre [] Hpre 0 I).
    cbn [dispatch_loop]. rewrite app_nil_r. reflexivity.
Qed.

(** X7: when the receiver is gone after [n] commands, the next command
    the dispatcher tries to send makes it return
    [Err(AppError::ChannelSend(cmd))] at once, without reading further and
    without disabling raw mode. *)
Theorem dispatcher_send_failure n pre k cmd post :
  Forall not_quit pre ->
  List.length (parsed_commands key_display pre) = n ->
  is_quit k = false ->
  command_parser_get key_display (command_parser_new key_display) k = Some cmd ->
  dispatcher_run key_display (Some n) (pre ++ KeyPress k :: post) =
  (parsed_commands key_display pre, DispatchErr (ChannelSend cmd), true).
Proof.
  intros Hpre Hn Hk Hg. unfold dispatcher_run.
  rewrite (dispatch_loop_prefix (Some n) pre _ Hpre 0 ltac:(simpl; lia)).
  cbn [dispatch_loop]. rewrite Hk, Hg.
  replace (Nat.leb n (0 + List.length (parsed_commands key_display pre)))
    with true by (symmetry; apply Nat.leb_le; lia).
  rewrite app_nil_r. reflexivity.
Qed.

End DispatcherProofs.

(** ** Properties of [run_timer] in [src/main.rs] *)

Lemma existsb_firstn_take_skip (k : nat) skips :
  existsb (fun b => b) (firstn (S k) skips) =
  fst (FlagMain.take_skip skips)
  || existsb (fun b => b) (firstn k (snd (FlagMain.take_skip skips))).
Proof.
  destruct skips as [|b r]; simpl; [|reflexivity].
  rewrite firstn_nil. reflexivity.
Qed.

(** X8: [run_timer]'s countdown stops as skipped exactly when the skip
    flag is seen set at one of its [total_seconds] iterations; a session
    of 0 seconds is never skipped. *)
Theorem countdown_skipped_iff ty (n : nat) :
  forall skips,
  fst (FlagMain.countdown ty n skips) = existsb (fun b => b) (firstn n skips).
Proof.
  induction n as [|n IH]; intros skips; [reflexivity|].
  rewrite existsb_firstn_take_skip. cbn [FlagMain.countdown].
  destruct (FlagMain.take_skip skips) as [sk r]. cbn [fst snd].
  destruct sk; [reflexivity|].
  specialize (IH r). destruct (FlagMain.countdown ty n r) as [w e].
  exact IH.
Qed.

(** X9: [run_timer]'s countdown sends the "10 seconds left" notice at
    most once: exactly when the session lasts at least 10 seconds and the
    skip flag was not seen in the iterations before the 10-second mark
    (contrast with C7 for the channel-based timer). *)
Theorem countdown_ten_notice_once ty (n : nat) :
  forall skips,
  snd (FlagMain.countdown ty n skips) =
  if Nat.leb 10 n && negb (existsb (fun b => b) (firstn (n - 9) skips))
  then [Notify (session_display ty ++ ": 00:10s left")%string] else [].
Proof.
  induction n as [|n IH]; intros skips; [reflexivity|].
  cbn [FlagMain.countdown].
  assert (Hk : forall k, (S n - 9 = S k)%nat ->
             existsb (fun b => b) (firstn (S n - 9) skips) =
             fst (FlagMain.take_skip skips)
             || existsb (fun b => b) (firstn k (snd (FlagMain.take_skip skips)))).
  { intros k Ek. rewrite Ek. apply existsb_firstn_take_skip. }
  destruct (FlagMain.take_skip skips) as [sk r]. cbn [fst snd] in Hk.
  destruct (Nat.leb_spec 10 (S n)) as [Hn|Hn].
  - destruct (Hk (n - 9)%nat ltac:(lia)) as [].
    rewrite (Hk (n - 9)%nat ltac:(lia)).
    destruct sk; [reflexivity|]. cbn [orb negb andb].
    specialize (IH r). destruct (FlagMain.countdown ty n r) as [w e].
    cbn [snd] in IH |- *. rewrite IH.
    destruct (N.eqb_spec (N.of_nat (S n)) 10) as [E|E].
    + assert (n = 9%nat) by lia. subst n. reflexivity.
    + replace (Nat.leb 10 n) with true by (symmetry; apply Nat.leb_le; lia).
      reflexivity.
  - cbn [andb]. destruct sk; [reflexivity|].
    specialize (IH r). destruct (FlagMain.countdown ty n r) as [w e].
    cbn [snd] in IH |- *. rewrite IH.
    replace (Nat.leb 10 n) with false by (symmetry; apply Nat.leb_gt; lia).
    replace (N.of_nat (S n) =? 10) with false by (symmetry; apply N.eqb_neq; lia).
    reflexivity.
Qed.

Lemma countdown_no_tone ty (n : nat) :
  forall skips, ~ In PlaySound (snd (FlagMain.countdown ty n skips)).
Proof.
  intros skips. rewrite countdown_ten_notice_once.
  destruct (_ && _); simpl; intuition discriminate.
Qed.

(** X10: [run_timer] plays the completion tone exactly when sound is on
    and the skip flag was not seen during its [total_seconds] iterations;
    it then also sends the completion notification of the session type.
    A skipped session plays nothing and sends no completion notice. *)
Theorem run_timer_completion mins ty skips ns k :
  let total := N.to_nat ((mins * 60) mod u64_modulus) in
  (In PlaySound (snd (fst (FlagMain.run_timer mins ty skips ns k))) <->
   existsb (fun b => b) (firstn total skips) = false /\ ns = false) /\
  (existsb (fun b => b) (firstn total skips) = false ->
   exists E, snd (fst (FlagMain.run_timer mins ty skips ns k)) =
             E ++ [Notify (FlagMain.completion_message ty)]
               ++ (if negb ns then [PlaySound] else [])).
Proof.
  intros total.
  pose proof (countdown_skipped_iff ty total skips) as Hs.
  pose proof (countdown_no_tone ty total skips) as Hn.
  unfold FlagMain.run_timer. fold total.
  destruct (FlagMain.countdown ty total skips) as [sk eff]. cbn [fst snd] in *.
  subst sk. split.
  - destruct (existsb _ _); cbn [negb fst snd].
    + split; [intros H; contradiction|intros [H _]; discriminate].
    + rewrite !in_app_iff. destruct ns; simpl; intuition discriminate.
  - intros Hf. rewrite Hf. cbn [negb fst snd]. exists eff. reflexivity.
Qed.

(** ** Instances of the further properties at concrete inputs *)




Lemma work_session_ends_at_zero_witness :
  remaining_secs (mkState 0 false 3) = 0.
Proof.
  apply (work_session_ends_at_zero demo_work_timer 5 eq_refl
           (init_state demo_work_timer) [EvTick; EvCmd Skip; EvTick; EvTick]
           (mkState 0 false 3) [] [PlaySound]).
  vm_compute. reflexivity.
Defined.

Lemma progress_plus_remaining_witness :
  pos (mkState 3 false 0) + remaining_secs (mkState 3 false 0) =
  duration demo_break_timer.
Proof.
  refine (proj2 (progress_plus_remaining demo_break_timer
                   [EvTick; EvCmd Reset] [mkState 2 false 1; mkState 3 false 0]
                   (mkState 3 false 0) [] _)).
  econstructor; [simpl; lia|vm_compute; reflexivity|].
  econstructor; [simpl; lia|vm_compute; reflexivity|constructor].
Defined.


Lemma dispatcher_sends_until_quit_witness :
  dispatcher_run demo_key_display None
    ([KeyPress (mkKeyEvent (Char "p") 0); PollTimeout;
      KeyPress (mkKeyEvent (Char "x") 0)]
     ++ KeyPress (mkKeyEvent Esc 0) :: [KeyPress (mkKeyEvent (Char "s") 0)]) =
  ([Pause; Reset], DispatchOk, false).
Proof.
  refine (proj1 (dispatcher_sends_until_quit demo_key_display
                   [KeyPress (mkKeyEvent (Char "p") 0); PollTimeout;
                    KeyPress (mkKeyEvent (Char "x") 0)]
                   (mkKeyEvent Esc 0) [KeyPress (mkKeyEvent (Char "s") 0)] _)
                 eq_refl).
  repeat constructor.
Defined.

Lemma dispatcher_send_failure_witness :
  dispatcher_run demo_key_display (Some 1%nat)
    ([KeyPress (mkKeyEvent (Char "p") 0)]
     ++ KeyPress (mkKeyEvent (Char "s") 0) :: [KeyPress (mkKeyEvent (Char "q") 0)]) =
  ([Pause], DispatchErr (ChannelSend Skip), true).
Proof.
  apply (dispatcher_send_failure demo_key_display 1
           [KeyPress (mkKeyEvent (Char "p") 0)] (mkKeyEvent (Char "s") 0) Skip
           [KeyPress (mkKeyEvent (Char "q") 0)]).
  - repeat constructor.
  - reflexivity.
  - reflexivity.
  - reflexivity.
Defined.

Lemma run_timer_completion_witness :
  exists E, snd (fst (FlagMain.run_timer 1 (ShortBreak "Break time")
                        [false; false] false 0)) =
            E ++ [Notify (FlagMain.completion_message (ShortBreak "Break time"))]
              ++ [PlaySound].
Proof.
  exact (proj2 (run_timer_completion 1 (ShortBreak "Break time") [false; false]
                  false 0) eq_refl).
Defined.
